(** * The user service of [app.py]: create, list and delete over one table

    A shallow embedding of the three FastAPI routes of [src/app.py] and of the
    SQLAlchemy session calls they make, followed by the properties of the
    service's contract.

    What is modelled, and how:
    - the table [users] is a finite map from the primary key [id] to the two
      other columns, so the primary-key constraint holds by typing;
    - the store is SQLite ([DATABASE_URL]) and the model declares
      [Column(Integer, Sequence("user_id_seq"), primary_key=True)] without
      [sqlite_autoincrement]: SQLite has no sequences, the column is an alias
      of the rowid, and an insert that gives no id receives one more than the
      largest id in the table at that moment (1 in an empty table);
    - each handler commits before it returns, so a handler is a function from
      the committed table to a result and the committed table;
    - a route without [response_model] sends [jsonable_encoder] of the object
      the handler returns (every loaded column attribute of an ORM object); a
      route with [response_model=UserResponse] sends the fields of
      [UserResponse] only;
    - requests run one at a time;
    - the same handlers are also given call by call on a session ([db.add],
      [db.delete], [db.commit], [db.refresh], [with db:], [get_db]), and shown
      to agree with the functions on the committed table;
    - the two pool listeners act on the dict [connection_record.info].

    Integers are unbounded, as Python's are. SQLite's INTEGER is 64-bit: an
    id outside that range that reaches a query makes sqlite3 raise
    [OverflowError], which no handler catches. That the rowids themselves
    run out at 2^63 - 1 is outside the model. *)

From Stdlib Require Import ZArith Ascii String List Lia.
From stdpp Require Import base option list gmap strings fin_maps.

Set Warnings "-register-all".

Local Open Scope Z_scope.
Local Open Scope string_scope.

(** ** JSON values *)

Inductive json : Type :=
| JNull
| JBool (b : bool)
| JInt (n : Z)
| JStr (s : string)
| JArr (items : list json)
| JObj (fields : list (string * json)).

(** The keys of an object, in order; no keys for any other value. *)
Definition json_keys (j : json) : list string :=
  match j with
  | JObj fields => map fst fields
  | _ => []
  end.

(** Reading a key the way a decoded Python dict answers: of several members
    with the same key, the last one counts. *)
Fixpoint assoc_get (k : string) (fields : list (string * json)) : option json :=
  match fields with
  | [] => None
  | (k', v) :: rest =>
      match assoc_get k rest with
      | Some w => Some w
      | None => if String.eqb k k' then Some v else None
      end
  end.

Definition json_field (k : string) (j : json) : option json :=
  match j with
  | JObj fields => assoc_get k fields
  | _ => None
  end.

Definition has_key (k : string) (j : json) : bool :=
  existsb (String.eqb k) (json_keys j).

(** ** The data model *)

(** [class User(Base)]: one ORM object, with its three column attributes. *)
Record User : Type := mkUser {
  id : Z;
  username : string;
  password : string
}.

(** The columns of a row other than its primary key. *)
Record Columns : Type := mkColumns {
  col_username : string;
  col_password : string
}.

(** The table [users]: primary key to the remaining columns. *)
Abbreviation users := (gmap Z Columns).

Definition load (row : Z * Columns) : User :=
  mkUser (fst row) (col_username (snd row)) (col_password (snd row)).

(** [class UserCreate(BaseModel)] *)
Record UserCreate : Type := mkUserCreate {
  uc_username : string;
  uc_password : string
}.

(** [class UserResponse(BaseModel)] *)
Record UserResponse : Type := mkUserResponse {
  ur_id : Z;
  ur_username : string
}.

(** ** Exceptions *)

(** [HTTPException(status_code=..., detail=...)] *)
Inductive HTTPException : Type :=
| mkHTTPException (status_code : Z) (detail : string).

(** What a handler, or a call on the session, can raise: an [HTTPException],
    or one of the exceptions of the libraries underneath, which no handler
    of the application catches. *)
Inductive Raised : Type :=
| RaisedHTTP (e : HTTPException)
| OverflowError
| IntegrityError
| InvalidRequestError.

(** The integers sqlite3 can bind as a parameter: the 64-bit signed ones. *)
Definition in_int64 (n : Z) : bool :=
  (Z.leb (- 2 ^ 63) n) && (Z.leb n (2 ^ 63 - 1)).

(** ** The persistence layer: what the session calls do to the table *)

(** [db.query(User).all()]: every row, in the order the store enumerates. *)
Definition query_all (db : users) : list User :=
  map load (map_to_list db).

(** [db.query(User).filter(User.username == name).first()] *)
Definition query_by_username (name : string) (db : users) : option User :=
  List.find (fun u => String.eqb (username u) name) (query_all db).

(** [db.query(User).filter(User.id == user_id).first()]. The id is bound as
    a parameter of the statement, and sqlite3 raises [OverflowError] for an
    int outside the 64-bit range. The ids of the rows are 64-bit themselves,
    so only an id in range can match a row: the error shows exactly where no
    row matches and the id is out of range. *)
Definition query_by_id (user_id : Z) (db : users) : Raised + option User :=
  match db !! user_id with
  | Some c => inr (Some (load (user_id, c)))
  | None => if in_int64 user_id then inr None else inl OverflowError
  end.

(** The rowid SQLite gives to an insert that names none: one more than the
    largest rowid in the table, and 1 when the table is empty. *)
Definition max_rowid (keys : list Z) : option Z :=
  match keys with
  | [] => None
  | k :: rest => Some (fold_right Z.max k rest)
  end.

Definition next_rowid (db : users) : Z :=
  match max_rowid (map fst (map_to_list db)) with
  | None => 1
  | Some m => m + 1
  end.

(** [db.add(user); db.commit(); db.refresh(user)]: the row is inserted under
    the next rowid and the object is reloaded with its id. *)
Definition add_commit_refresh (name pw : string) (db : users) : User * users :=
  let k := next_rowid db in
  (mkUser k name pw, <[k := mkColumns name pw]> db).

(** [db.delete(user); db.commit()]: DELETE ... WHERE id = the object's id. *)
Definition delete_commit (user : User) (db : users) : users :=
  delete (id user) db.

(** ** The handlers *)

(** A handler runs on the committed table and either raises or returns. *)
Definition Handler (A : Type) : Type := users -> (Raised + A) * users.

(** [async def create_user(user_create, db)] *)
Definition create_user (user_create : UserCreate) : Handler User :=
  fun db =>
    match query_by_username (uc_username user_create) db with
    | Some existing_user =>
        (inl (RaisedHTTP (mkHTTPException 400 "Username already registered")), db)
    | None =>
        let '(user, db') :=
          add_commit_refresh (uc_username user_create) (uc_password user_create) db in
        (inr user, db')
    end.

(** [async def get_users(db)] *)
Definition get_users : Handler (list User) :=
  fun db => (inr (query_all db), db).

(** [async def delete_user(user_id, db)] *)
Definition delete_user (user_id : Z) : Handler User :=
  fun db =>
    match query_by_id user_id db with
    | inl e => (inl e, db)
    | inr (Some user) => (inr user, delete_commit user db)
    | inr None => (inl (RaisedHTTP (mkHTTPException 404 "User not found")), db)
    end.

(** ** The framework around the handlers *)

(** What the client receives. A validation failure is FastAPI's 422 answer;
    its body (the list of pydantic errors) is not modelled. An exception
    that is not an [HTTPException] is caught by no handler and is answered
    500, "Internal Server Error". *)
Inductive Response : Type :=
| Success (content : json)
| ErrorResponse (status_code : Z) (detail : string)
| RequestValidationError
| InternalServerError.

Definition status_of (r : Response) : Z :=
  match r with
  | Success _ => 200
  | ErrorResponse s _ => s
  | RequestValidationError => 422
  | InternalServerError => 500
  end.

(** The JSON a successful response carries. *)
Definition payload (r : Response) : option json :=
  match r with
  | Success c => Some c
  | _ => None
  end.

(** A route declared without [response_model]: the returned ORM object goes
    through [jsonable_encoder], which takes [vars(obj)] and drops only the
    keys that start with [_sa]; the three column attributes remain. *)
Definition jsonable_encoder (u : User) : json :=
  JObj [("username", JStr (username u));
        ("password", JStr (password u));
        ("id", JInt (id u))].

(** A route declared with [response_model=UserResponse]: the object is read
    into the response model and the model's fields are sent. *)
Definition UserResponse_from (u : User) : UserResponse :=
  mkUserResponse (id u) (username u).

Definition UserResponse_dump (r : UserResponse) : json :=
  JObj [("id", JInt (ur_id r)); ("username", JStr (ur_username r))].

Definition as_UserResponse (u : User) : json :=
  UserResponse_dump (UserResponse_from u).

Definition as_UserResponse_list (l : list User) : json :=
  JArr (map as_UserResponse l).

(** A [str] field takes a JSON string. *)
Definition str_validate (v : json) : option string :=
  match v with
  | JStr s => Some s
  | _ => None
  end.

(** Validation of a request body against [UserCreate]. The model keeps
    pydantic's default configuration, under which members of the body that
    are not fields of the model are ignored. *)
Definition UserCreate_validate (body : json) : option UserCreate :=
  match body with
  | JObj fields =>
      match assoc_get "username" fields, assoc_get "password" fields with
      | Some vu, Some vp =>
          match str_validate vu, str_validate vp with
          | Some u, Some p => Some (mkUserCreate u p)
          | _, _ => None
          end
      | _, _ => None
      end
  | _ => None
  end.

(** One route: the parameters are validated first; only when they are valid
    does the endpoint run, inside the session that [get_db] yields (its
    commit after the endpoint and its close change nothing more, since the
    endpoints commit themselves). An exception becomes an error response, a
    returned value is encoded. *)
Definition route {P A : Type} (validated : option P)
    (endpoint : P -> Handler A) (encode : A -> json)
    (db : users) : Response * users :=
  match validated with
  | None => (RequestValidationError, db)
  | Some p =>
      let '(r, db') := endpoint p db in
      match r with
      | inl (RaisedHTTP (mkHTTPException s d)) => (ErrorResponse s d, db')
      | inl _ => (InternalServerError, db')
      | inr a => (Success (encode a), db')
      end
  end.

Inductive Request : Type :=
| POST_create_user (body : json)
| GET_get_users
| DELETE_delete_user (user_id : string).

Section App.

(** The conversion of a path segment to [int], which the framework does. *)
Variable int_validate : string -> option Z.

(** [@app.post("/create_user")] *)
Definition post_create_user (body : json) : users -> Response * users :=
  route (UserCreate_validate body) create_user jsonable_encoder.

(** [@app.get("/get_users", response_model=list[UserResponse])] *)
Definition get_get_users : users -> Response * users :=
  route (Some tt) (fun _ => get_users) as_UserResponse_list.

(** [@app.delete("/delete_user/{user_id}", response_model=UserResponse)] *)
Definition delete_delete_user (user_id : string) : users -> Response * users :=
  route (int_validate user_id) delete_user as_UserResponse.

Definition app (req : Request) : users -> Response * users :=
  match req with
  | POST_create_user body => post_create_user body
  | GET_get_users => get_get_users
  | DELETE_delete_user user_id => delete_delete_user user_id
  end.

(** Requests served one after the other; the log pairs each request with
    its response. *)
Fixpoint serve (reqs : list Request) (db : users)
    : list (Request * Response) * users :=
  match reqs with
  | [] => ([], db)
  | req :: rest =>
      let '(resp, db') := app req db in
      let '(log, db'') := serve rest db' in
      ((req, resp) :: log, db'')
  end.

End App.

(** A plain decimal reading of a path segment: an optional minus sign and
    at least one digit. It instantiates [int_validate] in the concrete runs
    below, which use only segments that any [int] conversion reads alike. *)
Definition digit_of (c : Ascii.ascii) : option Z :=
  let n := Z.of_nat (Ascii.nat_of_ascii c) in
  if ((48 <=? n) && (n <=? 57))%Z then Some (n - 48)%Z else None.

Fixpoint digits_value (acc : Z) (s : string) : option Z :=
  match s with
  | EmptyString => Some acc
  | String c rest =>
      match digit_of c with
      | Some d => digits_value (10 * acc + d)%Z rest
      | None => None
      end
  end.

Definition decimal_int (s : string) : option Z :=
  match s with
  | EmptyString => None
  | String "-"%char EmptyString => None
  | String "-"%char rest => option_map Z.opp (digits_value 0 rest)
  | _ => digits_value 0 s
  end.

(** ** Bookkeeping over a log *)

Definition is_success (r : Response) : bool :=
  match r with
  | Success _ => true
  | _ => false
  end.

Definition created_ok (e : Request * Response) : bool :=
  match fst e with
  | POST_create_user _ => is_success (snd e)
  | _ => false
  end.

Definition deleted_ok (e : Request * Response) : bool :=
  match fst e with
  | DELETE_delete_user _ => is_success (snd e)
  | _ => false
  end.

(** The number of successful creates and of successful deletes in a log. *)
Definition creates (log : list (Request * Response)) : nat :=
  length (List.filter created_ok log).

Definition deletes (log : list (Request * Response)) : nat :=
  length (List.filter deleted_ok log).



(** No two rows carry the same username. *)
Definition unique_usernames (db : users) : Prop :=
  forall i j ci cj,
    db !! i = Some ci -> db !! j = Some cj ->
    col_username ci = col_username cj -> i = j.

(** A username that no row of the table carries. *)
Definition fresh_username (name : string) (db : users) : Prop :=
  forall k c, db !! k = Some c -> col_username c <> name.

(** Sample requests. *)
Definition alice : json :=
  JObj [("username", JStr "alice"); ("password", JStr "p1")].

Definition alice_again : json :=
  JObj [("username", JStr "alice"); ("password", JStr "p2")].

Definition bob : json :=
  JObj [("username", JStr "bob"); ("password", JStr "p2")].


Definition only_alice : users := {[ 1 := mkColumns "alice" "p1" ]}.




(** ** The connection-pool listeners *)

(** [connection_record.info] is a dict; under a key it holds [None] or an
    int. Reading a key that is absent raises [KeyError]. *)
Inductive KeyError : Type :=
| mkKeyError (key : string).

(** [def connect(dbapi_connection, connection_record)] *)
Definition connect (info : gmap string (option Z)) : gmap string (option Z) :=
  <["pid" := None]> info.

(** [def checkout(dbapi_connection, connection_record, connection_proxy)],
    with [pid] the value of [os.getpid()]. *)
Definition checkout (pid : Z) (info : gmap string (option Z))
    : KeyError + gmap string (option Z) :=
  match info !! "pid" with
  | None => inl (mkKeyError "pid")
  | Some stored =>
      let is_none := match stored with None => true | Some _ => false end in
      let differs := match stored with None => true | Some p => negb (Z.eqb p pid) end in
      if is_none || differs then inr (<["pid" := Some pid]> info) else inr info
  end.

(** ** The session, call by call *)

(** A session over the table: the table as committed, the objects added and
    not yet flushed, and the ids of the objects marked deleted and not yet
    flushed. The session is made with [autoflush=False], so queries read the
    committed table. *)
Record Session : Type := mkSession {
  store : users;
  pending_new : list (string * string);
  pending_deleted : list Z
}.




(** INSERT of one row: the unique index on [username] refuses a name that a
    row already carries; otherwise the row goes under the next rowid. *)
Definition insert_row (name pw : string) (db : users) : option (Z * users) :=
  match query_by_username name db with
  | Some _ => None
  | None => Some (next_rowid db, <[next_rowid db := mkColumns name pw]> db)
  end.

(** The flush of the added objects, in the order they were added; it gives
    the ids they received. *)
Fixpoint flush_new (l : list (string * string)) (db : users)
    : option (list Z * users) :=
  match l with
  | [] => Some ([], db)
  | (name, pw) :: rest =>
      match insert_row name pw db with
      | None => None
      | Some (k, db') =>
          match flush_new rest db' with
          | None => None
          | Some (ks, db'') => Some (k :: ks, db'')
          end
      end
  end.

(** The flush of the deleted objects: DELETE ... WHERE id = k for each. *)
Definition flush_deleted (l : list Z) (db : users) : users :=
  fold_left (fun d k => delete k d) l db.

(** [db.commit()]: inserts, then deletes, then the commit; when an insert is
    refused nothing is written and [IntegrityError] is raised ([None]). *)
Definition session_commit (s : Session) : option (list Z * Session) :=
  match flush_new (pending_new s) (store s) with
  | None => None
  | Some (ks, db) =>
      Some (ks, mkSession (flush_deleted (pending_deleted s) db) [] [])
  end.













(** * Properties *)

(** ** The persistence layer *)

Lemma fold_max_ge_init (k : Z) (l : list Z) : k <= fold_right Z.max k l.
Proof.
  induction l as [|x l IH]; simpl; lia.
Qed.

Lemma fold_max_ge_elem (k x : Z) (l : list Z) :
  In x l -> x <= fold_right Z.max k l.
Proof.
  induction l as [|y l IH]; simpl; [tauto|].
  intros [->|Hin]; [lia|]. specialize (IH Hin). lia.
Qed.

Lemma max_rowid_bound (keys : list Z) (x : Z) :
  In x keys -> exists m, max_rowid keys = Some m /\ x <= m.
Proof.
  destruct keys as [|k rest]; simpl; [tauto|].
  intros [->|Hin]; eexists; split; try reflexivity.
  - apply fold_max_ge_init.
  - now apply fold_max_ge_elem.
Qed.

(** Every id in the table lies below the next rowid. *)
Lemma next_rowid_above (db : users) (k : Z) (c : Columns) :
  db !! k = Some c -> k < next_rowid db.
Proof.
  intros Hk. unfold next_rowid.
  assert (Hin : In k (map fst (map_to_list db))).
  { apply in_map_iff. exists (k, c). split; [reflexivity|].
    apply list_elem_of_In, elem_of_map_to_list, Hk. }
  destruct (max_rowid_bound _ _ Hin) as (m & -> & Hle). lia.
Qed.

Lemma next_rowid_unused (db : users) : db !! next_rowid db = None.
Proof.
  destruct (db !! next_rowid db) as [c|] eqn:E; [|reflexivity].
  apply next_rowid_above in E. lia.
Qed.

Lemma In_query_all (u : User) (db : users) :
  In u (query_all db) <->
  db !! id u = Some (mkColumns (username u) (password u)).
Proof.
  unfold query_all. rewrite in_map_iff. split.
  - intros ([k [cu cp]] & <- & Hin). simpl.
    now apply list_elem_of_In, elem_of_map_to_list in Hin.
  - intros H. exists (id u, mkColumns (username u) (password u)). split.
    + now destruct u.
    + now apply list_elem_of_In, elem_of_map_to_list.
Qed.

Lemma query_by_username_found (name : string) (db : users) (u : User) :
  query_by_username name db = Some u ->
  db !! id u = Some (mkColumns name (password u)) /\ username u = name.
Proof.
  unfold query_by_username. intros H. apply find_some in H as [Hin Heq].
  apply String.eqb_eq in Heq. apply In_query_all in Hin.
  rewrite Heq in Hin. now split.
Qed.

Lemma query_by_username_none (name : string) (db : users) :
  query_by_username name db = None <-> fresh_username name db.
Proof.
  unfold query_by_username, fresh_username. split.
  - intros H k [cu cp] Hk Heq. simpl in Heq. subst cu.
    pose proof (find_none _ _ H (mkUser k name cp)) as Hn.
    simpl in Hn. rewrite String.eqb_refl in Hn.
    assert (true = false) by (apply Hn, In_query_all; exact Hk).
    discriminate.
  - intros H.
    destruct (List.find _ _) as [u|] eqn:E; [|reflexivity].
    apply query_by_username_found in E as [Hrow _].
    now apply H in Hrow.
Qed.

Lemma query_by_username_taken (name : string) (db : users) (k : Z) (c : Columns) :
  db !! k = Some c -> col_username c = name ->
  exists u, query_by_username name db = Some u.
Proof.
  intros Hk Hc.
  destruct (query_by_username name db) as [u|] eqn:E; [now exists u|].
  apply query_by_username_none in E. now apply E in Hk.
Qed.

(** ** The routes, case by case *)


Lemma create_when_taken (body : json) (uc : UserCreate) (db : users)
    (k : Z) (c : Columns) :
  UserCreate_validate body = Some uc ->
  db !! k = Some c -> col_username c = uc_username uc ->
  post_create_user body db =
    (ErrorResponse 400 "Username already registered", db).
Proof.
  intros Hv Hk Hc.
  destruct (query_by_username_taken _ _ _ _ Hk Hc) as [u Hu].
  unfold post_create_user, route, create_user. rewrite Hv, Hu. reflexivity.
Qed.

Section Routes.

Variable int_validate : string -> option Z.

Lemma delete_when_absent (path : string) (user_id : Z) (db : users) :
  int_validate path = Some user_id -> in_int64 user_id = true ->
  db !! user_id = None ->
  delete_delete_user int_validate path db =
    (ErrorResponse 404 "User not found", db).
Proof.
  intros Hp Hr Hk. unfold delete_delete_user, route, delete_user, query_by_id.
  rewrite Hp, Hk, Hr. reflexivity.
Qed.

Lemma delete_when_out_of_range (path : string) (user_id : Z) (db : users) :
  int_validate path = Some user_id -> in_int64 user_id = false ->
  db !! user_id = None ->
  delete_delete_user int_validate path db = (InternalServerError, db).
Proof.
  intros Hp Hr Hk. unfold delete_delete_user, route, delete_user, query_by_id.
  rewrite Hp, Hk, Hr. reflexivity.
Qed.

Lemma delete_when_present (path : string) (user_id : Z) (db : users)
    (c : Columns) :
  int_validate path = Some user_id -> db !! user_id = Some c ->
  delete_delete_user int_validate path db =
    (Success (JObj [("id", JInt user_id); ("username", JStr (col_username c))]),
     delete user_id db).
Proof.
  intros Hp Hk. unfold delete_delete_user, route, delete_user, query_by_id.
  rewrite Hp, Hk. reflexivity.
Qed.

End Routes.

(** ** The contract of the service *)

(** C3. A create request whose username a row of the table already carries
    is answered 400 with the detail "Username already registered", and the
    table after it is the table before it; listing returns the same. *)
Theorem create_duplicate_rejected (body : json) (uc : UserCreate) (db : users)
    (k : Z) (c : Columns) :
  UserCreate_validate body = Some uc ->
  db !! k = Some c -> col_username c = uc_username uc ->
  post_create_user body db = (ErrorResponse 400 "Username already registered", db)
  /\ status_of (fst (post_create_user body db)) = 400
  /\ get_get_users (snd (post_create_user body db)) = get_get_users db.
Proof.
  intros Hv Hk Hc.
  rewrite (create_when_taken body uc db k c Hv Hk Hc). auto.
Qed.

Lemma create_duplicate_rejected_witness :
  post_create_user alice_again only_alice =
    (ErrorResponse 400 "Username already registered", only_alice)
  /\ status_of (fst (post_create_user alice_again only_alice)) = 400
  /\ get_get_users (snd (post_create_user alice_again only_alice)) =
     get_get_users only_alice.
Proof.
  apply (create_duplicate_rejected alice_again (mkUserCreate "alice" "p2")
           only_alice 1 (mkColumns "alice" "p1")); reflexivity.
Defined.

(** C4, on the code: a delete request whose id matches no row is answered
    404 "User not found" only while the id is a 64-bit integer; for an id
    beyond that range, which matches no row either, the query raises
    [OverflowError], nothing catches it, and the answer is 500 instead of the
    404 that the handler's else branch is written to give. The table is left
    as it was in both cases. *)
Theorem delete_missing_404_or_500 (int_validate : string -> option Z)
    (path : string) (user_id : Z) (db : users) :
  int_validate path = Some user_id -> db !! user_id = None ->
  (in_int64 user_id = true ->
   delete_delete_user int_validate path db =
     (ErrorResponse 404 "User not found", db))
  /\ (in_int64 user_id = false ->
      delete_delete_user int_validate path db = (InternalServerError, db)
      /\ status_of (fst (delete_delete_user int_validate path db)) = 500).
Proof.
  intros Hp Hk. split; intros Hr.
  - exact (delete_when_absent int_validate path user_id db Hp Hr Hk).
  - rewrite (delete_when_out_of_range int_validate path user_id db Hp Hr Hk).
    split; reflexivity.
Qed.

Lemma delete_missing_404_or_500_witness :
  delete_delete_user decimal_int "7" only_alice =
    (ErrorResponse 404 "User not found", only_alice)
  /\ delete_delete_user decimal_int "9223372036854775808" only_alice =
       (InternalServerError, only_alice)
  /\ status_of (fst (delete_delete_user decimal_int "9223372036854775808"
                       only_alice)) = 500.
Proof.
  split.
  - apply (delete_missing_404_or_500 decimal_int "7" 7 only_alice);
      reflexivity.
  - apply (delete_missing_404_or_500 decimal_int "9223372036854775808"
             (2 ^ 63) only_alice); reflexivity.
Defined.

(** C5. A delete request whose id matches a row returns that row's id and
    username, removes that row and no other (every other id keeps its row,
    and the table has exactly one row fewer), and a second delete request for
    the same id is answered 404 "User not found" (the id of a row being a
    64-bit integer, as every id SQLite stores). *)
Theorem delete_existing_removes_one (int_validate : string -> option Z)
    (path : string) (user_id : Z) (db : users) (c : Columns) :
  int_validate path = Some user_id -> db !! user_id = Some c ->
  let resp := fst (delete_delete_user int_validate path db) in
  let db' := snd (delete_delete_user int_validate path db) in
  resp = Success (JObj [("id", JInt user_id); ("username", JStr (col_username c))])
  /\ db' !! user_id = None
  /\ (forall k, k <> user_id -> db' !! k = db !! k)
  /\ S (size db') = size db
  /\ (in_int64 user_id = true ->
      delete_delete_user int_validate path db' =
        (ErrorResponse 404 "User not found", db')).
Proof.
  intros Hp Hk resp db'. subst resp db'.
  rewrite (delete_when_present int_validate path user_id db c Hp Hk). simpl.
  repeat split.
  - apply lookup_delete_eq.
  - intros k Hne. now apply lookup_delete_ne.
  - pose proof (map_size_delete user_id db) as Hs. rewrite Hk in Hs.
    assert (size db <> 0%nat).
    { intros Hz. apply map_size_empty_inv in Hz. subst db.
      rewrite lookup_empty in Hk. discriminate. }
    lia.
  - intros Hr. apply (delete_when_absent int_validate path user_id);
      [exact Hp | exact Hr | apply lookup_delete_eq].
Qed.

Lemma delete_existing_removes_one_witness :
  let resp := fst (delete_delete_user decimal_int "1" only_alice) in
  let db' := snd (delete_delete_user decimal_int "1" only_alice) in
  resp = Success (JObj [("id", JInt 1); ("username", JStr "alice")])
  /\ db' !! 1 = None
  /\ (forall k, k <> 1 -> db' !! k = only_alice !! k)
  /\ S (size db') = size only_alice
  /\ delete_delete_user decimal_int "1" db' =
       (ErrorResponse 404 "User not found", db').
Proof.
  destruct (delete_existing_removes_one decimal_int "1" 1 only_alice
              (mkColumns "alice" "p1") eq_refl eq_refl)
    as (H1 & H2 & H3 & H4 & H5).
  exact (conj H1 (conj H2 (conj H3 (conj H4 (H5 eq_refl))))).
Defined.















(** ** What the responses show *)

Lemma as_UserResponse_keys (u : User) :
  json_keys (as_UserResponse u) = ["id"; "username"].
Proof. reflexivity. Qed.

Lemma as_UserResponse_id (u : User) :
  json_field "id" (as_UserResponse u) = Some (JInt (id u)).
Proof. reflexivity. Qed.

(** The list route sends objects with the keys id and username only. *)
Lemma list_payload_keys (db : users) :
  exists items,
    get_get_users db = (Success (JArr items), db)
    /\ Forall (fun j => json_keys j = ["id"; "username"]) items.
Proof.
  exists (map as_UserResponse (query_all db)). split; [reflexivity|].
  apply List.Forall_forall. intros j Hin.
  apply in_map_iff in Hin as (u & <- & _). apply as_UserResponse_keys.
Qed.

(** The delete route, when it succeeds, sends the keys id and username only. *)
Lemma delete_payload_keys (int_validate : string -> option Z)
    (path : string) (db : users) (c : json) :
  payload (fst (delete_delete_user int_validate path db)) = Some c ->
  json_keys c = ["id"; "username"].
Proof.
  unfold delete_delete_user, route, delete_user, query_by_id.
  destruct (int_validate path) as [user_id|]; [|discriminate].
  destruct (db !! user_id) as [cols|]; simpl;
    [|destruct (in_int64 user_id); discriminate].
  intros [= <-]. reflexivity.
Qed.

(** C1, on the code: the create route is declared without a response model,
    unlike the list and delete routes, and its response carries the password.
    On the empty table, creating alice with password p1 is answered with an
    object that has the three keys username, password and id. *)
Theorem create_response_carries_password :
  fst (post_create_user alice ∅) =
    Success (JObj [("username", JStr "alice"); ("password", JStr "p1");
                   ("id", JInt 1)])
  /\ (payload (fst (post_create_user alice ∅)) ≫= json_field "password") =
       Some (JStr "p1").
Proof.
  vm_compute. split; reflexivity.
Qed.

(** Every successful create response has the password key. *)
Lemma create_payload_has_password (body : json) (db : users) (c : json) :
  payload (fst (post_create_user body db)) = Some c ->
  has_key "password" c = true.
Proof.
  unfold post_create_user, route, create_user.
  destruct (UserCreate_validate body) as [uc|]; [|discriminate].
  destruct (query_by_username (uc_username uc) db); simpl; [discriminate|].
  intros [= <-]. reflexivity.
Qed.

(** ** Invariants of the service over a sequence of requests *)

Lemma unique_usernames_empty : unique_usernames ∅.
Proof.
  intros i j ci cj Hi. rewrite lookup_empty in Hi. discriminate.
Qed.

Lemma unique_usernames_insert (db : users) (name pw : string) :
  unique_usernames db -> fresh_username name db ->
  unique_usernames (<[next_rowid db := mkColumns name pw]> db).
Proof.
  intros Hu Hf i j ci cj Hi Hj Heq.
  destruct (decide (i = next_rowid db)) as [->|Hni];
    destruct (decide (j = next_rowid db)) as [->|Hnj]; [reflexivity| | |].
  - rewrite lookup_insert_eq in Hi. rewrite lookup_insert_ne in Hj by congruence.
    injection Hi as <-. simpl in Heq. apply Hf in Hj. congruence.
  - rewrite lookup_insert_eq in Hj. rewrite lookup_insert_ne in Hi by congruence.
    injection Hj as <-. simpl in Heq. apply Hf in Hi. congruence.
  - rewrite lookup_insert_ne in Hi by congruence.
    rewrite lookup_insert_ne in Hj by congruence.
    exact (Hu i j ci cj Hi Hj Heq).
Qed.

Lemma unique_usernames_delete (db : users) (k : Z) :
  unique_usernames db -> unique_usernames (delete k db).
Proof.
  intros Hu i j ci cj Hi Hj.
  apply lookup_delete_Some in Hi as [_ Hi].
  apply lookup_delete_Some in Hj as [_ Hj].
  exact (Hu i j ci cj Hi Hj).
Qed.

Section Sequences.

Variable int_validate : string -> option Z.

(** What one request does to the table. *)
Lemma app_table (req : Request) (db : users) :
  let resp := fst (app int_validate req db) in
  let db' := snd (app int_validate req db) in
  (db' = db /\ created_ok (req, resp) = false /\ deleted_ok (req, resp) = false)
  \/ (exists name pw, fresh_username name db /\
        db' = <[next_rowid db := mkColumns name pw]> db /\
        created_ok (req, resp) = true /\ deleted_ok (req, resp) = false)
  \/ (exists k c, db !! k = Some c /\ db' = delete k db /\
        created_ok (req, resp) = false /\ deleted_ok (req, resp) = true).
Proof.
  destruct req as [body| |path]; simpl.
  - unfold post_create_user, route, create_user.
    destruct (UserCreate_validate body) as [uc|]; [|left; auto].
    destruct (query_by_username (uc_username uc) db) eqn:E; [left; auto|].
    right; left. exists (uc_username uc), (uc_password uc).
    apply query_by_username_none in E. auto.
  - left. auto.
  - unfold delete_delete_user, route, delete_user, query_by_id.
    destruct (int_validate path) as [user_id|]; [|left; auto].
    destruct (db !! user_id) as [c|] eqn:E;
      [|destruct (in_int64 user_id); left; auto].
    right; right. exists user_id, c. auto.
Qed.

Lemma serve_cons (req : Request) (rest : list Request) (db : users) :
  serve int_validate (req :: rest) db =
    ((req, fst (app int_validate req db))
       :: fst (serve int_validate rest (snd (app int_validate req db))),
     snd (serve int_validate rest (snd (app int_validate req db)))).
Proof.
  simpl. destruct (app int_validate req db) as [resp db']. simpl.
  destruct (serve int_validate rest db') as [log db'']. reflexivity.
Qed.

Lemma app_keeps_unique (req : Request) (db : users) :
  unique_usernames db -> unique_usernames (snd (app int_validate req db)).
Proof.
  intros Hu.
  destruct (app_table req db)
    as [(-> & _) | [(name & pw & Hf & -> & _) | (k & c & _ & -> & _)]].
  - exact Hu.
  - now apply unique_usernames_insert.
  - now apply unique_usernames_delete.
Qed.

Lemma serve_keeps_unique (reqs : list Request) (db : users) :
  unique_usernames db -> unique_usernames (snd (serve int_validate reqs db)).
Proof.
  revert db. induction reqs as [|req rest IH]; intros db Hu; [exact Hu|].
  rewrite serve_cons. simpl. apply IH, app_keeps_unique, Hu.
Qed.

(** Rows are counted by the successful creates and deletes. *)
Lemma app_size (req : Request) (db : users) :
  let e := (req, fst (app int_validate req db)) in
  (size (snd (app int_validate req db)) + (if deleted_ok e then 1 else 0)
   = size db + (if created_ok e then 1 else 0))%nat.
Proof.
  destruct (app_table req db)
    as [(Hdb & Hc & Hd)
       | [(name & pw & _ & Hdb & Hc & Hd) | (k & c & Hk & Hdb & Hc & Hd)]];
    simpl; rewrite Hdb, Hc, Hd.
  - lia.
  - rewrite map_size_insert_None by apply next_rowid_unused. lia.
  - rewrite map_size_delete, Hk.
    assert (size db <> 0%nat).
    { intros Hz. apply map_size_empty_inv in Hz. subst db.
      rewrite lookup_empty in Hk. discriminate. }
    lia.
Qed.

Lemma serve_size (reqs : list Request) (db : users) :
  (size (snd (serve int_validate reqs db))
     + deletes (fst (serve int_validate reqs db))
   = size db + creates (fst (serve int_validate reqs db)))%nat.
Proof.
  revert db. induction reqs as [|req rest IH]; intros db.
  - simpl. unfold creates, deletes. simpl. lia.
  - rewrite serve_cons. simpl fst. simpl snd.
    specialize (IH (snd (app int_validate req db))).
    pose proof (app_size req db) as Hs. simpl in Hs.
    unfold creates, deletes in *. simpl List.filter.
    destruct (created_ok _), (deleted_ok _); simpl length; lia.
Qed.

End Sequences.

(** The list route answers with one object per row, ids pairwise distinct. *)
Lemma list_payload_rows (db : users) :
  exists items,
    get_get_users db = (Success (JArr items), db)
    /\ length items = size db
    /\ NoDup (map (json_field "id") items).
Proof.
  exists (map as_UserResponse (query_all db)). split; [reflexivity|]. split.
  - unfold query_all. rewrite !length_map. apply length_map_to_list.
  - unfold query_all.
    assert (Hext : forall l : list (Z * Columns),
               map (json_field "id") (map as_UserResponse (map load l))
               = (fun k => Some (JInt k)) <$> (fst <$> l)).
    { induction l as [|x l IH]; simpl; [reflexivity|]. now rewrite IH. }
    rewrite Hext. apply NoDup_fmap_2.
    + intros a b [=]. assumption.
    + apply NoDup_fst_map_to_list.
Qed.

(** C7. After any sequence of create, list and delete requests served one at
    a time on the empty table, no two rows have the same username. *)
Theorem usernames_stay_unique (int_validate : string -> option Z)
    (reqs : list Request) :
  unique_usernames (snd (serve int_validate reqs ∅)).
Proof.
  apply serve_keeps_unique, unique_usernames_empty.
Qed.

(** C8. After any sequence of requests served one at a time on the empty
    table, of which N creates and M deletes succeeded, the list route returns
    exactly N - M records (and M is at most N), with pairwise distinct ids. *)
Theorem list_counts_creates_minus_deletes (int_validate : string -> option Z)
    (reqs : list Request) :
  let log := fst (serve int_validate reqs ∅) in
  let db := snd (serve int_validate reqs ∅) in
  exists items,
    get_get_users db = (Success (JArr items), db)
    /\ (deletes log <= creates log)%nat
    /\ length items = (creates log - deletes log)%nat
    /\ NoDup (map (json_field "id") items).
Proof.
  intros log db. subst log db.
  destruct (list_payload_rows (snd (serve int_validate reqs ∅)))
    as (items & Hget & Hlen & Hnd).
  pose proof (serve_size int_validate reqs ∅) as Hs.
  rewrite map_size_empty in Hs.
  exists items. repeat split; [exact Hget | lia | lia | exact Hnd].
Qed.

(** * Further properties of the routes *)

Lemma created_ok_success (req : Request) (resp : Response) :
  created_ok (req, resp) = true -> status_of resp = 200.
Proof.
  destruct req; simpl; try discriminate. destruct resp; simpl; now try discriminate.
Qed.

Lemma deleted_ok_success (req : Request) (resp : Response) :
  deleted_ok (req, resp) = true -> status_of resp = 200.
Proof.
  destruct req; simpl; try discriminate. destruct resp; simpl; now try discriminate.
Qed.

(** A request that is not answered 200 leaves the table as it was. *)
Theorem failure_leaves_table (int_validate : string -> option Z)
    (req : Request) (db : users) :
  status_of (fst (app int_validate req db)) <> 200 ->
  snd (app int_validate req db) = db.
Proof.
  intros Hst.
  destruct (app_table int_validate req db)
    as [(Hdb & _) | [(name & pw & _ & _ & Hc & _) | (k & c & _ & _ & _ & Hd)]].
  - exact Hdb.
  - apply created_ok_success in Hc. contradiction.
  - apply deleted_ok_success in Hd. contradiction.
Qed.

Lemma failure_leaves_table_witness :
  snd (app decimal_int (POST_create_user alice_again) only_alice) = only_alice.
Proof.
  apply (failure_leaves_table decimal_int (POST_create_user alice_again) only_alice).
  vm_compute. discriminate.
Defined.


(** The list route never changes the table, and what it returns is the
    table: an object with id k and username n is listed exactly when row k
    carries username n, and nothing of another shape is listed. *)
Theorem list_reflects_table (db : users) :
  exists items,
    get_get_users db = (Success (JArr items), db)
    /\ (forall k name,
          In (JObj [("id", JInt k); ("username", JStr name)]) items <->
          exists pw, db !! k = Some (mkColumns name pw))
    /\ (forall j, In j items ->
          exists k name, j = JObj [("id", JInt k); ("username", JStr name)]).
Proof.
  exists (map as_UserResponse (query_all db)).
  split; [reflexivity|]. split.
  - intros k name. rewrite in_map_iff. split.
    + intros (u & Hu & Hin). apply In_query_all in Hin.
      injection Hu as <- <-. now exists (password u).
    + intros (pw & Hk). exists (mkUser k name pw). split; [reflexivity|].
      now apply In_query_all.
  - intros j Hin. apply in_map_iff in Hin as (u & <- & _).
    now exists (id u), (username u).
Qed.







(** Where usernames are unique, the username query returns the one row that
    carries the name. *)
Theorem username_query_finds_the_row (db : users) (k : Z) (c : Columns) :
  unique_usernames db -> db !! k = Some c ->
  query_by_username (col_username c) db = Some (load (k, c)).
Proof.
  intros Hu Hk.
  destruct (query_by_username_taken (col_username c) db k c Hk eq_refl) as [u Hq].
  rewrite Hq. apply query_by_username_found in Hq as [Hrow Hname].
  assert (Hid : id u = k) by (apply (Hu _ _ _ _ Hrow Hk); reflexivity).
  rewrite Hid, Hk in Hrow. injection Hrow as Hc.
  destruct u as [i n p], c as [cn cp]. simpl in *.
  injection Hc as Hp. unfold load. simpl. congruence.
Qed.

Lemma username_query_finds_the_row_witness :
  query_by_username "alice" only_alice = Some (mkUser 1 "alice" "p1").
Proof.
  apply (username_query_finds_the_row only_alice 1 (mkColumns "alice" "p1")).
  - intros i j ci cj Hi Hj _. unfold only_alice in Hi, Hj.
    apply lookup_singleton_Some in Hi as [<- _].
    apply lookup_singleton_Some in Hj as [<- _]. reflexivity.
  - reflexivity.
Defined.

(** ** How ids are handed out *)

Lemma fold_max_in (k : Z) (l : list Z) : In (fold_right Z.max k l) (k :: l).
Proof.
  induction l as [|x l IH]; simpl; [now left|].
  destruct (Z.max_spec x (fold_right Z.max k l)) as [[_ ->] | [_ ->]].
  - destruct IH as [IH|IH]; [now left | now right; right].
  - now right; left.
Qed.

Lemma next_rowid_cases (db : users) :
  (db = ∅ /\ next_rowid db = 1)
  \/ (exists m c, db !! m = Some c /\ next_rowid db = m + 1).
Proof.
  unfold next_rowid.
  destruct (map fst (map_to_list db)) as [|k rest] eqn:E.
  - left. split; [|reflexivity].
    apply map_to_list_empty_iff. now destruct (map_to_list db).
  - right. simpl.
    pose proof (fold_max_in k rest) as Hin. rewrite <- E in Hin.
    apply in_map_iff in Hin as ([m c] & Hm & Hin). simpl in Hm.
    apply list_elem_of_In, elem_of_map_to_list in Hin.
    exists m, c. split; [exact Hin | now rewrite Hm].
Qed.

(** Deleting a row that does not hold the largest id leaves the next id
    unchanged; deleting the row with the largest id (ids from 1 on) makes
    that id, or a smaller one, the next to be handed out. *)
Theorem next_id_after_delete (db : users) (k : Z) (c : Columns) :
  db !! k = Some c ->
  ((exists k' c', db !! k' = Some c' /\ k < k') ->
   next_rowid (delete k db) = next_rowid db)
  /\ ((forall k' c', db !! k' = Some c' -> k' <= k) -> 1 <= k ->
      next_rowid db = k + 1 /\ next_rowid (delete k db) <= k).
Proof.
  intros Hk.
  destruct (next_rowid_cases db) as [[-> _] | (m & cm & Hm & Hnext)];
    [rewrite lookup_empty in Hk; discriminate|].
  pose proof (next_rowid_above db k c Hk) as Hkm.
  split.
  - intros (k' & c' & Hk' & Hlt).
    pose proof (next_rowid_above db k' c' Hk') as Hk'm.
    assert (Hmd : delete k db !! m = Some cm)
      by (apply lookup_delete_Some; split; [lia | exact Hm]).
    pose proof (next_rowid_above _ m cm Hmd) as Hlow.
    destruct (next_rowid_cases (delete k db))
      as [[He _] | (m' & cm' & Hm' & Hnext')].
    + rewrite He, lookup_empty in Hmd. discriminate.
    + apply lookup_delete_Some in Hm' as [_ Hm'].
      pose proof (next_rowid_above db m' cm' Hm'). lia.
  - intros Hmax Hpos.
    pose proof (Hmax m cm Hm) as Hle.
    split; [lia|].
    destruct (next_rowid_cases (delete k db))
      as [[_ ->] | (m' & cm' & Hm' & ->)]; [lia|].
    apply lookup_delete_Some in Hm' as [Hne Hm'].
    pose proof (Hmax m' cm' Hm'). lia.
Qed.

Lemma next_id_after_delete_witness :
  next_rowid only_alice = 1 + 1 /\ next_rowid (delete 1 only_alice) <= 1.
Proof.
  destruct (next_id_after_delete only_alice 1 (mkColumns "alice" "p1") eq_refl)
    as [_ H].
  apply H; [|lia].
  intros k' c' Hk'. unfold only_alice in Hk'.
  apply lookup_singleton_Some in Hk' as [<- _]. lia.
Defined.

Lemma creates_cons (e : Request * Response) (log : list (Request * Response)) :
  creates (e :: log) = ((if created_ok e then 1 else 0) + creates log)%nat.
Proof. unfold creates. simpl. now destruct (created_ok e). Qed.

Lemma deletes_cons (e : Request * Response) (log : list (Request * Response)) :
  deletes (e :: log) = ((if deleted_ok e then 1 else 0) + deletes log)%nat.
Proof. unfold deletes. simpl. now destruct (deleted_ok e). Qed.

Section Ids.

Variable int_validate : string -> option Z.

Lemma serve_ids_bounded (reqs : list Request) (db : users) (n : Z) :
  0 <= n ->
  (forall k c, db !! k = Some c -> 1 <= k <= n) ->
  forall k c, snd (serve int_validate reqs db) !! k = Some c ->
    1 <= k <= n + Z.of_nat (creates (fst (serve int_validate reqs db))).
Proof.
  revert db n. induction reqs as [|req rest IH]; intros db n Hn Hb k c Hk.
  - simpl in *. specialize (Hb k c Hk). unfold creates. simpl. lia.
  - rewrite serve_cons in Hk |- *. simpl fst. simpl snd in Hk.
    rewrite creates_cons.
    set (e := (req, fst (app int_validate req db))).
    assert (Hstep : forall k c, snd (app int_validate req db) !! k = Some c ->
              1 <= k <= n + (if created_ok e then 1 else 0)).
    { destruct (app_table int_validate req db)
        as [(Hdb & Hc & _)
           | [(name & pw & _ & Hdb & Hc & _) | (j & cj & _ & Hdb & Hc & _)]];
        simpl in Hdb, Hc; fold e in Hc; rewrite Hdb, Hc; intros k0 c0 Hk0.
      - specialize (Hb k0 c0 Hk0). lia.
      - apply lookup_insert_Some in Hk0 as [[<- _] | [_ Hk0]].
        + destruct (next_rowid_cases db) as [[_ ->] | (m & cm & Hm & ->)]; [lia|].
          specialize (Hb m cm Hm). lia.
        + specialize (Hb k0 c0 Hk0). lia.
      - apply lookup_delete_Some in Hk0 as [_ Hk0].
        specialize (Hb k0 c0 Hk0). lia. }
    assert (Hn' : 0 <= n + (if created_ok e then 1 else 0))
      by (destruct (created_ok e); lia).
    specialize (IH _ _ Hn' Hstep k c Hk).
    destruct (created_ok e); lia.
Qed.

Lemma serve_ids_dense (reqs : list Request) (db : users) (n : Z) :
  0 <= n ->
  (forall k, is_Some (db !! k) <-> 1 <= k <= n) ->
  deletes (fst (serve int_validate reqs db)) = 0%nat ->
  forall k, is_Some (snd (serve int_validate reqs db) !! k) <->
            1 <= k <= n + Z.of_nat (creates (fst (serve int_validate reqs db))).
Proof.
  revert db n. induction reqs as [|req rest IH]; intros db n Hn Hd Hdel k.
  - simpl. unfold creates. simpl. rewrite Hd. lia.
  - rewrite serve_cons in Hdel |- *. simpl fst in *. simpl snd.
    rewrite deletes_cons in Hdel. rewrite creates_cons.
    set (e := (req, fst (app int_validate req db))) in *.
    destruct (deleted_ok e) eqn:Ede; [discriminate Hdel|]. simpl in Hdel.
    destruct (app_table int_validate req db)
      as [(Hdb & Hc & _)
         | [(name & pw & _ & Hdb & Hc & _) | (j & cj & _ & _ & _ & Hd')]];
      simpl in *; fold e in Hc || fold e in Hd'.
    + rewrite Hdb in Hdel |- *. rewrite Hc.
      rewrite (IH db n Hn Hd Hdel k). simpl. lia.
    + assert (Hnext : next_rowid db = n + 1).
      { destruct (next_rowid_cases db) as [[He Hnx] | (m & cm & Hm & Hnx)].
        - destruct (decide (n = 0)) as [->|Hne]; [exact Hnx|].
          assert (Hs : is_Some (db !! 1)) by (apply Hd; lia).
          rewrite He, lookup_empty in Hs. now destruct Hs.
        - assert (1 <= m <= n) by (apply Hd; eauto).
          assert (Hs : is_Some (db !! n)) by (apply Hd; lia).
          destruct Hs as [cn Hcn].
          pose proof (next_rowid_above db n cn Hcn) as Hlt. lia. }
      rewrite Hdb, Hnext in Hdel |- *. rewrite Hc.
      rewrite (IH (<[n + 1 := mkColumns name pw]> db) (n + 1)); [lia | lia | | ].
      * intros k0. rewrite lookup_insert_is_Some, Hd. lia.
      * exact Hdel.
    + rewrite Hd' in Ede. discriminate.
Qed.

End Ids.

(** On a service started with an empty table, every id in the table lies
    between 1 and the number of creates that have succeeded so far. *)
Theorem ids_positive_and_bounded (int_validate : string -> option Z)
    (reqs : list Request) (k : Z) (c : Columns) :
  snd (serve int_validate reqs ∅) !! k = Some c ->
  1 <= k <= Z.of_nat (creates (fst (serve int_validate reqs ∅))).
Proof.
  intros Hk.
  apply (serve_ids_bounded int_validate reqs ∅ 0) with (c := c);
    [lia | | exact Hk].
  intros k0 c0 H0. rewrite lookup_empty in H0. discriminate.
Qed.

Lemma ids_positive_and_bounded_witness :
  1 <= 1 <=
    Z.of_nat (creates (fst (serve decimal_int
                              [POST_create_user alice; GET_get_users] ∅))).
Proof.
  apply (ids_positive_and_bounded decimal_int
           [POST_create_user alice; GET_get_users] 1 (mkColumns "alice" "p1")).
  vm_compute. reflexivity.
Defined.

(** As long as no delete has succeeded, the ids in the table are exactly
    1, 2, ..., N, where N is the number of creates that succeeded. *)
Theorem ids_dense_without_deletes (int_validate : string -> option Z)
    (reqs : list Request) (k : Z) :
  deletes (fst (serve int_validate reqs ∅)) = 0%nat ->
  (is_Some (snd (serve int_validate reqs ∅) !! k) <->
   1 <= k <= Z.of_nat (creates (fst (serve int_validate reqs ∅)))).
Proof.
  intros Hdel.
  apply (serve_ids_dense int_validate reqs ∅ 0); [lia | | exact Hdel].
  intros k0. rewrite lookup_empty. split; [intros [x Hx]; discriminate | lia].
Qed.

Lemma ids_dense_without_deletes_witness :
  is_Some (snd (serve decimal_int
                  [POST_create_user alice; POST_create_user bob] ∅) !! 2) <->
  1 <= 2 <=
    Z.of_nat (creates (fst (serve decimal_int
                              [POST_create_user alice; POST_create_user bob] ∅))).
Proof.
  apply (ids_dense_without_deletes decimal_int
           [POST_create_user alice; POST_create_user bob] 2).
  vm_compute. reflexivity.
Defined.

(** * The connection-pool listeners *)

Lemma checkout_assigns (pid : Z) (info : gmap string (option Z))
    (stored : option Z) :
  info !! "pid" = Some stored ->
  checkout pid info = inr (<["pid" := Some pid]> info).
Proof.
  intros Hs. unfold checkout. rewrite Hs.
  destruct stored as [p|]; simpl; [|reflexivity].
  destruct (Z.eqb_spec p pid) as [->|Hne]; simpl; [|reflexivity].
  f_equal. symmetry. now apply insert_id.
Qed.

(** Whenever the record has a pid entry, whatever it holds ([None] after
    [connect], this process's id, or another process's id after a fork), a
    checkout succeeds and leaves the record with the current process id under
    pid and every other entry untouched: the result is that of assigning the
    pid unconditionally. *)
Theorem checkout_stamps_pid (pid : Z) (info : gmap string (option Z))
    (stored : option Z) :
  info !! "pid" = Some stored ->
  checkout pid info = inr (<["pid" := Some pid]> info)
  /\ (<["pid" := Some pid]> info) !! "pid" = Some (Some pid)
  /\ (forall key, key <> "pid" ->
        (<["pid" := Some pid]> info) !! key = info !! key).
Proof.
  intros Hs. split; [|split].
  - exact (checkout_assigns pid info stored Hs).
  - apply lookup_insert_eq.
  - intros key Hne. now apply lookup_insert_ne.
Qed.

Lemma checkout_stamps_pid_witness :
  checkout 41 {[ "pid" := Some 7 ]} = inr (<["pid" := Some 41]> {[ "pid" := Some 7 ]})
  /\ (<["pid" := Some 41]> ({[ "pid" := Some 7 ]} : gmap string (option Z)))
       !! "pid" = Some (Some 41)
  /\ (forall key, key <> "pid" ->
        (<["pid" := Some 41]> ({[ "pid" := Some 7 ]} : gmap string (option Z)))
          !! key = ({[ "pid" := Some 7 ]} : gmap string (option Z)) !! key).
Proof.
  apply (checkout_stamps_pid 41 {[ "pid" := Some 7 ]} (Some 7)). reflexivity.
Defined.

(** A checkout raises [KeyError] exactly when the record has no pid entry;
    after [connect] it has one, so the first checkout of a connection
    succeeds and stamps the process id. *)
Theorem checkout_after_connect (pid : Z) (info : gmap string (option Z)) :
  (checkout pid info = inl (mkKeyError "pid") <-> info !! "pid" = None)
  /\ checkout pid (connect info) = inr (<["pid" := Some pid]> info).
Proof.
  split.
  - unfold checkout. destruct (info !! "pid") as [stored|]; [|tauto].
    split; [|discriminate].
    destruct (_ || _); discriminate.
  - unfold checkout, connect. rewrite lookup_insert_eq. simpl.
    f_equal. apply insert_insert_eq.
Qed.

(** A second checkout in the same process changes nothing. *)
Theorem checkout_idempotent (pid : Z) (info info' : gmap string (option Z)) :
  checkout pid info = inr info' -> checkout pid info' = inr info'.
Proof.
  intros Hc.
  destruct (info !! "pid") as [stored|] eqn:Hs;
    [|unfold checkout in Hc; rewrite Hs in Hc; discriminate].
  rewrite (checkout_assigns pid info stored Hs) in Hc. injection Hc as <-.
  unfold checkout. rewrite lookup_insert_eq. simpl.
  rewrite Z.eqb_refl. reflexivity.
Qed.

Lemma checkout_idempotent_witness :
  checkout 41 (<["pid" := Some 41]> {[ "pid" := None ]}) =
    inr (<["pid" := Some 41]> {[ "pid" := None ]}).
Proof.
  apply (checkout_idempotent 41 {[ "pid" := None ]}). reflexivity.
Defined.

(** * The session around the handlers *)








Lemma flush_new_refused (l : list (string * string)) (db : users)
    (name pw : string) (k : Z) (c : Columns) :
  In (name, pw) l -> db !! k = Some c -> col_username c = name ->
  flush_new l db = None.
Proof.
  revert db k c. induction l as [|[n p] rest IH]; intros db k c Hin Hk Hc;
    [destruct Hin|].
  simpl. unfold insert_row.
  destruct (query_by_username n db) eqn:E; [reflexivity|].
  apply query_by_username_none in E.
  destruct Hin as [[= -> ->]|Hin]; [now apply E in Hk|].
  rewrite (IH _ k c Hin); [reflexivity | | exact Hc].
  rewrite lookup_insert_ne; [exact Hk|].
  pose proof (next_rowid_above db k c Hk). lia.
Qed.

(** The unique index at work: a commit with a pending user whose username a
    row of the table already carries is refused as a whole, whatever else is
    pending. *)
Theorem commit_refused_on_duplicate (s : Session) (name pw : string)
    (k : Z) (c : Columns) :
  In (name, pw) (pending_new s) ->
  store s !! k = Some c -> col_username c = name ->
  session_commit s = None.
Proof.
  intros Hin Hk Hc. unfold session_commit.
  now rewrite (flush_new_refused _ _ name pw k c Hin Hk Hc).
Qed.

Lemma commit_refused_on_duplicate_witness :
  session_commit (mkSession only_alice [("bob", "p2"); ("alice", "p3")] []) = None.
Proof.
  apply (commit_refused_on_duplicate
           (mkSession only_alice [("bob", "p2"); ("alice", "p3")] [])
           "alice" "p3" 1 (mkColumns "alice" "p1")).
  - simpl. right. left. reflexivity.
  - reflexivity.
  - reflexivity.
Defined.

Lemma flush_new_keeps_unique (l : list (string * string)) (db db' : users)
    (ks : list Z) :
  unique_usernames db -> flush_new l db = Some (ks, db') ->
  unique_usernames db'.
Proof.
  revert db ks. induction l as [|[n p] rest IH]; intros db ks Hu Hf; simpl in Hf.
  - now injection Hf as _ <-.
  - unfold insert_row in Hf.
    destruct (query_by_username n db) eqn:E; [discriminate|].
    apply query_by_username_none in E.
    destruct (flush_new rest _) as [[ks' db'']|] eqn:Er; [|discriminate].
    injection Hf as _ <-.
    refine (IH _ ks' _ Er). now apply unique_usernames_insert.
Qed.

Lemma flush_deleted_keeps_unique (l : list Z) (db : users) :
  unique_usernames db -> unique_usernames (flush_deleted l db).
Proof.
  revert db. induction l as [|k rest IH]; intros db Hu; [exact Hu|].
  simpl. apply IH. now apply unique_usernames_delete.
Qed.

(** Whatever a session holds pending, a commit that goes through leaves a
    table in which usernames are still unique. *)
Theorem commit_keeps_usernames_unique (s s' : Session) (ks : list Z) :
  unique_usernames (store s) -> session_commit s = Some (ks, s') ->
  unique_usernames (store s').
Proof.
  intros Hu Hc. unfold session_commit in Hc.
  destruct (flush_new (pending_new s) (store s)) as [[ks' db']|] eqn:E;
    [|discriminate].
  injection Hc as _ <-. simpl.
  apply flush_deleted_keeps_unique.
  now apply (flush_new_keeps_unique _ _ _ _ Hu E).
Qed.

Lemma commit_keeps_usernames_unique_witness :
  unique_usernames
    (store (mkSession (<[next_rowid ∅ := mkColumns "bob" "p2"]> ∅) [] [])).
Proof.
  apply (commit_keeps_usernames_unique (mkSession ∅ [("bob", "p2")] []) _ [1]).
  - intros i j ci cj Hi. simpl in Hi. rewrite lookup_empty in Hi. discriminate.
  - vm_compute. reflexivity.
Defined.
